(** * ecosystem.config.js: the process launch specification of discord-reports

    The repository is one CommonJS module, [ecosystem.config.js], whose only
    statement assigns an object literal to [module.exports].  This file
    embeds

    - the text of the module, character for character;
    - the fragment of JavaScript the module is written in (string and number
      literals, array and object literals, member paths, assignment), with a
      lexer, a parser and an evaluator over a store of globals;
    - the value the module exports, written out as the source has it;
    - the schema of section 6 of the specification as a decoder from
      JavaScript values into a typed record.

    and proves the properties of the specification about them. *)

From Stdlib Require Import ZArith Ascii.
From stdpp Require Import gmap strings list.

Set Warnings "-register-all".
Local Open Scope Z_scope.

(** ** Errors *)

Inductive error : Type :=
| LexError : error
| SyntaxError : error
| ReferenceError : string -> error     (* an undeclared global *)
| TypeError : error                    (* a property of [undefined] *)
| Unsupported : error                  (* outside the fragment *)
| SchemaError : string -> error        (* the field the schema rejects *)
| OutOfFuel : error.

Inductive result (A : Type) : Type :=
| Ok : A -> result A
| Err : error -> result A.

Arguments Ok {A} _.
Arguments Err {A} _.

#[global] Instance result_ret : MRet result := fun _ a => Ok a.

#[global] Instance result_bind : MBind result := fun _ _ k r =>
  match r with
  | Ok a => k a
  | Err e => Err e
  end.

Definition is_ok {A : Type} (r : result A) : bool :=
  match r with
  | Ok _ => true
  | Err _ => false
  end.

Definition of_option {A : Type} (e : error) (o : option A) : result A :=
  match o with
  | Some a => Ok a
  | None => Err e
  end.

(** ** JavaScript values *)

(** Objects keep their properties in insertion order, as [Object.keys]
    shows them; arrays are lists.  A function or object that the runtime
    provides is known by its name only. *)
Inductive value : Type :=
| VUndefined : value
| VNum : Z -> value
| VStr : string -> value
| VArr : list value -> value
| VObj : list (string * value) -> value
| VBuiltin : string -> value.

Module Obj.

(** [o[k]] on a property list: the first binding of [k]. *)
Fixpoint lookup (k : string) (ps : list (string * value)) : option value :=
  match ps with
  | [] => None
  | (k', v) :: rest => if String.eqb k k' then Some v else lookup k rest
  end.

(** [o[k] = v]: an existing property keeps its position, a new one goes
    last. *)
Fixpoint set (k : string) (v : value) (ps : list (string * value))
  : list (string * value) :=
  match ps with
  | [] => [(k, v)]
  | (k', v') :: rest =>
      if String.eqb k k' then (k, v) :: rest else (k', v') :: set k v rest
  end.

Definition keys (ps : list (string * value)) : list string := map fst ps.

End Obj.

(** What every object written as a literal inherits: the own properties of
    [Object.prototype], as the language defines them.  [constructor] is the
    function [Object]; [__proto__] reads as the prototype itself; the others
    are its methods. *)
Definition object_prototype : list (string * value) :=
  [ ("constructor", VBuiltin "Object");
    ("__defineGetter__", VBuiltin "Object.prototype.__defineGetter__");
    ("__defineSetter__", VBuiltin "Object.prototype.__defineSetter__");
    ("hasOwnProperty", VBuiltin "Object.prototype.hasOwnProperty");
    ("__lookupGetter__", VBuiltin "Object.prototype.__lookupGetter__");
    ("__lookupSetter__", VBuiltin "Object.prototype.__lookupSetter__");
    ("isPrototypeOf", VBuiltin "Object.prototype.isPrototypeOf");
    ("propertyIsEnumerable", VBuiltin "Object.prototype.propertyIsEnumerable");
    ("toString", VBuiltin "Object.prototype.toString");
    ("valueOf", VBuiltin "Object.prototype.valueOf");
    ("__proto__", VBuiltin "Object.prototype");
    ("toLocaleString", VBuiltin "Object.prototype.toLocaleString") ].

Definition inherited_names : list string := Obj.keys object_prototype.

(** Reading [o.k]: an own property first, then the prototype, and
    [undefined] when neither has it.  Reading a property of [undefined] is a
    TypeError; the properties of strings, numbers, arrays and built-ins
    ([length], indices, their own prototypes) are outside the fragment. *)
Definition get_prop (k : string) (v : value) : result value :=
  match v with
  | VObj ps =>
      match Obj.lookup k ps with
      | Some x => Ok x
      | None => Ok (default VUndefined (Obj.lookup k object_prototype))
      end
  | VUndefined => Err TypeError
  | _ => Err Unsupported
  end.

(** What a consumer observes when it reads field [k] of a record; on a value
    that is not an object no field is observed. *)
Definition field (k : string) (v : value) : value :=
  match get_prop k v with
  | Ok x => x
  | Err _ => VUndefined
  end.

(** [o.hasOwnProperty(k)]: whether the record itself defines [k]. *)
Definition has_field (k : string) (v : value) : bool :=
  match v with
  | VObj ps => bool_decide (is_Some (Obj.lookup k ps))
  | _ => false
  end.

Definition own_keys (v : value) : list string :=
  match v with
  | VObj ps => Obj.keys ps
  | _ => []
  end.

(** ** Syntax of the fragment *)

Inductive expr : Type :=
| EStr : string -> expr
| ENum : Z -> expr
| ERef : list string -> expr                  (* a.b.c *)
| EArr : list expr -> expr                    (* [e, ...] *)
| EObj : list (string * expr) -> expr.        (* {k: e, ...} *)

Inductive stmt : Type :=
| SAssign : list string -> expr -> stmt.      (* a.b.c = e; *)

Definition program := list stmt.

(** ** Lexer *)

Inductive token : Type :=
| TIdent : string -> token
| TStr : string -> token
| TNum : Z -> token
| TPunct : ascii -> token.

Definition dquote : ascii := ascii_of_nat 34.
Definition squote : ascii := ascii_of_nat 39.
Definition backslash : ascii := ascii_of_nat 92.
Definition newline : ascii := ascii_of_nat 10.

Definition in_range (lo hi : nat) (c : ascii) : bool :=
  let n := nat_of_ascii c in (lo <=? n)%nat && (n <=? hi)%nat.

Definition is_space (c : ascii) : bool :=
  let n := nat_of_ascii c in
  (n =? 32)%nat || (n =? 9)%nat || (n =? 10)%nat || (n =? 13)%nat.

Definition is_digit (c : ascii) : bool := in_range 48 57 c.

Definition is_ident_start (c : ascii) : bool :=
  in_range 97 122 c || in_range 65 90 c
  || Ascii.eqb c "_"%char || Ascii.eqb c "$"%char.

Definition is_ident_part (c : ascii) : bool := is_ident_start c || is_digit c.

Definition is_punct (c : ascii) : bool :=
  existsb (Ascii.eqb c)
    ["{"; "}"; "["; "]"; ":"; ","; "."; "="; ";"]%char.

Definition digit_val (c : ascii) : Z := Z.of_nat (nat_of_ascii c) - 48.

Definition snoc (s : string) (c : ascii) : string :=
  s +:+ String c EmptyString.

(** The lexer is a state machine over the characters: idle, inside an
    identifier, inside a number, or inside a string literal opened by quote
    [q]. *)
Inductive lex_mode : Type :=
| LIdle : lex_mode
| LIdent : string -> lex_mode
| LNum : Z -> lex_mode
| LString : ascii -> string -> lex_mode.

(** The token a mode leaves behind when it ends. *)
Definition flush (m : lex_mode) : option (list token) :=
  match m with
  | LIdle => Some []
  | LIdent s => Some [TIdent s]
  | LNum n => Some [TNum n]
  | LString _ _ => None
  end.

(** Whether [c] carries on the token of mode [m], and the mode after it. *)
Definition continue (m : lex_mode) (c : ascii) : option lex_mode :=
  match m with
  | LIdent s => if is_ident_part c then Some (LIdent (snoc s c)) else None
  | LNum n => if is_digit c then Some (LNum (10 * n + digit_val c)) else None
  | _ => None
  end.

(** What a character does when no token is open. *)
Inductive start_result : Type :=
| Skip : start_result
| Emit : token -> start_result
| Enter : lex_mode -> start_result
| Bad : start_result.

Definition start (c : ascii) : start_result :=
  if is_space c then Skip
  else if is_punct c then Emit (TPunct c)
  else if Ascii.eqb c dquote || Ascii.eqb c squote
       then Enter (LString c EmptyString)
  else if is_digit c then Enter (LNum (digit_val c))
  else if is_ident_start c then Enter (LIdent (String c EmptyString))
  else Bad.

Definition prepend (ts : list token) (r : option (list token))
  : option (list token) :=
  match r with
  | Some ts' => Some (ts ++ ts')
  | None => None
  end.

Fixpoint lex_from (m : lex_mode) (s : string) : option (list token) :=
  match s with
  | EmptyString => flush m
  | String c rest =>
      match m with
      | LString q acc =>
          if Ascii.eqb c q then prepend [TStr acc] (lex_from LIdle rest)
          else if Ascii.eqb c backslash || Ascii.eqb c newline then None
          else lex_from (LString q (snoc acc c)) rest
      | _ =>
          match continue m c with
          | Some m' => lex_from m' rest
          | None =>
              match flush m, start c with
              | Some ts, Skip => prepend ts (lex_from LIdle rest)
              | Some ts, Emit t => prepend (ts ++ [t]) (lex_from LIdle rest)
              | Some ts, Enter m' => prepend ts (lex_from m' rest)
              | _, _ => None
              end
          end
      end
  end.

Definition lex (s : string) : option (list token) := lex_from LIdle s.

(** ** The text of the module *)

Definition quoted (s : string) : string :=
  String dquote EmptyString +:+ s +:+ String dquote EmptyString.

(** [src/ecosystem.config.js], line by line; the file does not end in a
    newline. *)
Definition source_lines : list string :=
  [ "module.exports = {";
    "  apps: [";
    "    {";
    "      name: " +:+ quoted "discord-reports" +:+ ",";
    "      script: " +:+ quoted "bot.py" +:+ ",";
    "      interpreter: " +:+ quoted "python3" +:+ ",";
    "      cron_restart: " +:+ quoted "30 4 * * *" +:+ ",";
    "      env: {";
    "        PYTHONUNBUFFERED: " +:+ quoted "1" +:+ ",";
    "      },";
    "    },";
    "  ],";
    "};" ].

Definition ecosystem_config_js : string :=
  String.concat (String newline EmptyString) source_lines.

(** ** Parser *)

(** [. x . y ...] after the head of a member path. *)
Fixpoint parse_path_tail (ts : list token) : list string * list token :=
  match ts with
  | TPunct c :: TIdent x :: rest =>
      if Ascii.eqb c "."%char
      then let '(p, r) := parse_path_tail rest in (x :: p, r)
      else ([], ts)
  | _ => ([], ts)
  end.

Definition parse_path (ts : list token) : result (list string * list token) :=
  match ts with
  | TIdent x :: rest =>
      let '(p, r) := parse_path_tail rest in Ok (x :: p, r)
  | _ => Err SyntaxError
  end.

(** A property name is an identifier or a string literal. *)
Definition parse_key (ts : list token) : result (string * list token) :=
  match ts with
  | TIdent k :: TPunct c :: rest =>
      if Ascii.eqb c ":"%char then Ok (k, rest) else Err SyntaxError
  | TStr k :: TPunct c :: rest =>
      if Ascii.eqb c ":"%char then Ok (k, rest) else Err SyntaxError
  | _ => Err SyntaxError
  end.

(** Recursive descent; [parse_elems] and [parse_props] start after the
    opening bracket or after a comma, so a trailing comma is accepted, as in
    the source. *)
Fixpoint parse_expr (fuel : nat) (ts : list token)
  : result (expr * list token) :=
  match fuel with
  | O => Err OutOfFuel
  | S fuel' =>
      match ts with
      | TStr s :: rest => Ok (EStr s, rest)
      | TNum n :: rest => Ok (ENum n, rest)
      | TIdent _ :: _ => '(p, rest) ← parse_path ts; Ok (ERef p, rest)
      | TPunct c :: rest =>
          if Ascii.eqb c "["%char
          then '(es, rest') ← parse_elems fuel' rest; Ok (EArr es, rest')
          else if Ascii.eqb c "{"%char
          then '(ps, rest') ← parse_props fuel' rest; Ok (EObj ps, rest')
          else Err SyntaxError
      | [] => Err SyntaxError
      end
  end
with parse_elems (fuel : nat) (ts : list token)
  : result (list expr * list token) :=
  match fuel with
  | O => Err OutOfFuel
  | S fuel' =>
      match ts with
      | TPunct "]" :: rest => Ok ([], rest)
      | _ =>
          '(e, rest) ← parse_expr fuel' ts;
          match rest with
          | TPunct "," :: rest' =>
              '(es, rest'') ← parse_elems fuel' rest'; Ok (e :: es, rest'')
          | TPunct "]" :: rest' => Ok ([e], rest')
          | _ => Err SyntaxError
          end
      end
  end
with parse_props (fuel : nat) (ts : list token)
  : result (list (string * expr) * list token) :=
  match fuel with
  | O => Err OutOfFuel
  | S fuel' =>
      match ts with
      | TPunct "}" :: rest => Ok ([], rest)
      | _ =>
          '(k, rest) ← parse_key ts;
          '(e, rest') ← parse_expr fuel' rest;
          match rest' with
          | TPunct "," :: rest'' =>
              '(ps, rest3) ← parse_props fuel' rest'';
              Ok ((k, e) :: ps, rest3)
          | TPunct "}" :: rest'' => Ok ([(k, e)], rest'')
          | _ => Err SyntaxError
          end
      end
  end.

(** [path = expr] and an optional semicolon. *)
Definition parse_stmt (fuel : nat) (ts : list token)
  : result (stmt * list token) :=
  '(p, rest) ← parse_path ts;
  match rest with
  | TPunct "=" :: rest' =>
      '(e, rest'') ← parse_expr fuel rest';
      match rest'' with
      | TPunct ";" :: rest3 => Ok (SAssign p e, rest3)
      | _ => Ok (SAssign p e, rest'')
      end
  | _ => Err SyntaxError
  end.

Fixpoint parse_stmts (fuel : nat) (ts : list token) : result program :=
  match ts with
  | [] => Ok []
  | _ =>
      match fuel with
      | O => Err OutOfFuel
      | S fuel' =>
          '(s, rest) ← parse_stmt fuel ts;
          ss ← parse_stmts fuel' rest;
          Ok (s :: ss)
      end
  end.

(** Fuel for the descent: each level of nesting and each token costs at most
    two units. *)
Definition parse_fuel (ts : list token) : nat := (2 * length ts + 2)%nat.

Definition parse (src : string) : result program :=
  ts ← of_option LexError (lex src);
  parse_stmts (parse_fuel ts) ts.

(** ** Evaluation *)

(** What the host hands to a module: the process environment and the
    command line. *)
Record host : Type := Host {
  host_env : list (string * string);
  host_argv : list string
}.

(** The globals a module body sees. *)
Definition store := list (string * value).

(** Node gives each evaluation a fresh [module] whose [exports] is an empty
    object. *)
Definition init_store (h : host) : store :=
  [ ("module", VObj [("exports", VObj [])]);
    ("process",
     VObj [("env", VObj (map (fun kv => (kv.1, VStr kv.2)) (host_env h)));
           ("argv", VArr (map VStr (host_argv h)))]) ].

Fixpoint get_path (v : value) (p : list string) : result value :=
  match p with
  | [] => Ok v
  | k :: p' => v' ← get_prop k v; get_path v' p'
  end.

Definition eval_ref (σ : store) (p : list string) : result value :=
  match p with
  | [] => Err SyntaxError
  | x :: p' => g ← of_option (ReferenceError x) (Obj.lookup x σ); get_path g p'
  end.

(** Literals evaluate left to right; in an object literal a repeated key
    overwrites the earlier value in place.  The key [__proto__] would set
    the prototype instead of a property and is outside the fragment. *)
Fixpoint eval (σ : store) (e : expr) : result value :=
  match e with
  | EStr s => Ok (VStr s)
  | ENum n => Ok (VNum n)
  | ERef p => eval_ref σ p
  | EArr es =>
      vs ← (fix elems (es : list expr) : result (list value) :=
              match es with
              | [] => Ok []
              | e' :: es' => v ← eval σ e'; vs ← elems es'; Ok (v :: vs)
              end) es;
      Ok (VArr vs)
  | EObj ps =>
      o ← (fix props (ps : list (string * expr)) (acc : list (string * value))
             : result (list (string * value)) :=
             match ps with
             | [] => Ok acc
             | (k, e') :: ps' =>
                 if String.eqb k "__proto__" then Err Unsupported
                 else v ← eval σ e'; props ps' (Obj.set k v acc)
             end) ps [];
      Ok (VObj o)
  end.

(** [v.k1.k2... = new]: every object on the way must exist; writing through
    anything but an object, or to [__proto__], is outside the fragment. *)
Fixpoint set_path (v : value) (p : list string) (new : value) : result value :=
  match p with
  | [] => Ok new
  | k :: p' =>
      match v with
      | VObj ps =>
          if String.eqb k "__proto__" then Err Unsupported
          else child ← set_path (field k v) p' new;
               Ok (VObj (Obj.set k child ps))
      | VUndefined => Err TypeError
      | _ => Err Unsupported
      end
  end.

Definition exec (σ : store) (s : stmt) : result store :=
  match s with
  | SAssign [] _ => Err SyntaxError
  | SAssign [x] e => v ← eval σ e; Ok (Obj.set x v σ)
  | SAssign (x :: p) e =>
      v ← eval σ e;
      g ← of_option (ReferenceError x) (Obj.lookup x σ);
      g' ← set_path g p v;
      Ok (Obj.set x g' σ)
  end.

Fixpoint exec_all (σ : store) (prog : program) : result store :=
  match prog with
  | [] => Ok σ
  | s :: prog' => σ' ← exec σ s; exec_all σ' prog'
  end.

Definition exports_of (σ : store) : result value :=
  eval_ref σ ["module"; "exports"].

(** Evaluating a module text on a host: what [require] returns the first
    time. *)
Definition evaluate (h : host) (src : string) : result value :=
  prog ← parse src;
  σ ← exec_all (init_store h) prog;
  exports_of σ.

(** ** The exported configuration *)

(** The object literal of [ecosystem.config.js], lines 3 to 11. *)
Definition app : value :=
  VObj [ ("name", VStr "discord-reports");
         ("script", VStr "bot.py");
         ("interpreter", VStr "python3");
         ("cron_restart", VStr "30 4 * * *");
         ("env", VObj [ ("PYTHONUNBUFFERED", VStr "1") ]) ].

(** [module.exports], lines 1 to 13. *)
Definition module_exports : value :=
  VObj [ ("apps", VArr [app]) ].

(** The list of managed processes a supervisor reads from the exports. *)
Definition apps_of (v : value) : result (list value) :=
  match field "apps" v with
  | VArr xs => Ok xs
  | _ => Err (SchemaError "apps")
  end.

(** ** The module cache *)

(** [require] evaluates the module the first time and answers from the cache
    afterwards; the state is the cache entry of the module. *)
Definition require (h : host) (cache : option value)
  : result (value * option value) :=
  match cache with
  | Some v => Ok (v, cache)
  | None => v ← evaluate h ecosystem_config_js; Ok (v, Some v)
  end.

(** [n] reads in a row: the values read and the cache left behind. *)
Fixpoint require_n (h : host) (n : nat) (cache : option value)
  : result (list value * option value) :=
  match n with
  | O => Ok ([], cache)
  | S n' =>
      '(v, cache') ← require h cache;
      '(vs, cache'') ← require_n h n' cache';
      Ok (v :: vs, cache'')
  end.

(** A reload drops the cache entry and reads again. *)
Definition reload (h : host) (cache : option value)
  : result (value * option value) :=
  require h None.

(** The value of [module.exports] after each statement of a program. *)
Fixpoint exports_trace (σ : store) (prog : program) : result (list value) :=
  match prog with
  | [] => Ok []
  | s :: prog' =>
      σ' ← exec σ s;
      v ← exports_of σ';
      vs ← exports_trace σ' prog';
      Ok (v :: vs)
  end.

(** ** Cron expressions *)

(** Standard five-field syntax: minute, hour, day of month, month, day of
    week, separated by blanks; a field is a comma-separated list of items, an
    item is [*], a number or a range [a-b], optionally followed by [/step].
    Minutes run from 0 to 59, hours from 0 to 23, days of the month from 1
    to 31, months from 1 to 12 and days of the week from 0 to 7 (0 and 7 are
    both Sunday); month and weekday names are not part of this grammar. *)

Definition is_blank (c : ascii) : bool :=
  Ascii.eqb c " "%char || Ascii.eqb c (ascii_of_nat 9).

Fixpoint split_on (sep : ascii -> bool) (cur : string) (s : string)
  : list string :=
  match s with
  | EmptyString => [cur]
  | String c rest =>
      if sep c then cur :: split_on sep EmptyString rest
      else split_on sep (snoc cur c) rest
  end.

Definition nonempty (s : string) : bool :=
  match s with
  | EmptyString => false
  | String _ _ => true
  end.

Definition cron_fields (s : string) : list string :=
  filter (fun f => nonempty f = true) (split_on is_blank EmptyString s).

Fixpoint digits (acc : Z) (s : string) : option Z :=
  match s with
  | EmptyString => Some acc
  | String c rest =>
      if is_digit c then digits (10 * acc + digit_val c) rest else None
  end.

Definition decimal (s : string) : option Z :=
  if nonempty s then digits 0 s else None.

Definition within (lo hi : Z) (o : option Z) : bool :=
  match o with
  | Some n => (lo <=? n) && (n <=? hi)
  | None => false
  end.

Definition range_ok (lo hi : Z) (s : string) : bool :=
  if String.eqb s "*" then true
  else match split_on (Ascii.eqb "-"%char) EmptyString s with
       | [a] => within lo hi (decimal a)
       | [a; b] =>
           match decimal a, decimal b with
           | Some x, Some y => (lo <=? x) && (x <=? y) && (y <=? hi)
           | _, _ => false
           end
       | _ => false
       end.

Definition item_ok (lo hi : Z) (s : string) : bool :=
  match split_on (Ascii.eqb "/"%char) EmptyString s with
  | [r] => range_ok lo hi r
  | [r; step] =>
      range_ok lo hi r
      && match decimal step with Some n => 0 <? n | None => false end
  | _ => false
  end.

Definition field_ok (lo hi : Z) (s : string) : bool :=
  forallb (item_ok lo hi) (split_on (Ascii.eqb ","%char) EmptyString s).

Definition minute_ok : string -> bool := field_ok 0 59.
Definition hour_ok : string -> bool := field_ok 0 23.
Definition day_of_month_ok : string -> bool := field_ok 1 31.
Definition month_ok : string -> bool := field_ok 1 12.
Definition day_of_week_ok : string -> bool := field_ok 0 7.

Definition valid_cron (s : string) : bool :=
  match cron_fields s with
  | [mi; ho; dom; mo; dow] =>
      minute_ok mi && hour_ok ho && day_of_month_ok dom
      && month_ok mo && day_of_week_ok dow
  | _ => false
  end.

(** ** The configuration schema *)

(** The process launch specification of section 3, with the optional fields
    of section 6 as options and the environment as a finite map. *)
Record launch_spec : Type := LaunchSpec {
  name : string;
  script : string;
  interpreter : option string;
  cron_restart : option string;
  env : option (gmap string string)
}.

Definition declared_fields : list string :=
  ["name"; "script"; "interpreter"; "cron_restart"; "env"].

Definition as_string (k : string) (v : value) : result string :=
  match v with
  | VStr s => Ok s
  | _ => Err (SchemaError k)
  end.

Definition as_cron (k : string) (v : value) : result string :=
  s ← as_string k v;
  if valid_cron s then Ok s else Err (SchemaError k).

(** A mapping of string keys to string values; the error names the variable
    whose value is not a string. *)
Fixpoint as_bindings (ps : list (string * value))
  : result (list (string * string)) :=
  match ps with
  | [] => Ok []
  | (k, v) :: ps' =>
      s ← as_string k v; kvs ← as_bindings ps'; Ok ((k, s) :: kvs)
  end.

Definition as_string_map (k : string) (v : value)
  : result (gmap string string) :=
  match v with
  | VObj ps => kvs ← as_bindings ps; Ok (list_to_map kvs)
  | _ => Err (SchemaError k)
  end.

Definition required {A : Type} (dec : string -> value -> result A)
    (k : string) (v : value) : result A :=
  if has_field k v then dec k (field k v) else Err (SchemaError k).

Definition optional {A : Type} (dec : string -> value -> result A)
    (k : string) (v : value) : result (option A) :=
  if has_field k v then a ← dec k (field k v); Ok (Some a) else Ok None.

(** The first key of a record that the schema does not declare. *)
Definition undeclared (v : value) : option string :=
  head (filter (fun k => k ∉ declared_fields) (own_keys v)).

Definition load_app (v : value) : result launch_spec :=
  match v with
  | VObj _ =>
      match undeclared v with
      | Some k => Err (SchemaError k)
      | None =>
          n ← required as_string "name" v;
          s ← required as_string "script" v;
          i ← optional as_string "interpreter" v;
          c ← optional as_cron "cron_restart" v;
          e ← optional as_string_map "env" v;
          Ok (LaunchSpec n s i c e)
      end
  | _ => Err (SchemaError "apps")
  end.

Fixpoint load_apps (vs : list value) : result (list launch_spec) :=
  match vs with
  | [] => Ok []
  | v :: vs' => a ← load_app v; rest ← load_apps vs'; Ok (a :: rest)
  end.

(** What a supervisor does with the file: evaluate it, take [apps], decode
    each entry. *)
Definition load (h : host) (src : string) : result (list launch_spec) :=
  v ← evaluate h src;
  vs ← apps_of v;
  load_apps vs.

(** A string-valued JavaScript value, and a mapping to strings.  Property
    names are strings by the type of [VObj]. *)
Definition is_string (v : value) : Prop := ∃ s, v = VStr s.

Definition is_string_map (v : value) : Prop :=
  ∃ ps, v = VObj ps ∧ Forall (fun kv => is_string kv.2) ps.

(** The schema of section 6, field by field. *)
Definition conforms (v : value) : Prop :=
  (has_field "name" v = true ∧ is_string (field "name" v))
  ∧ (has_field "script" v = true ∧ is_string (field "script" v))
  ∧ ∀ k, k ∈ own_keys v →
      k = "name" ∨ k = "script"
      ∨ (k = "interpreter" ∧ is_string (field k v))
      ∨ (k = "cron_restart"
         ∧ ∃ s, field k v = VStr s ∧ valid_cron s = true)
      ∨ (k = "env" ∧ is_string_map (field k v)).

(** The statement list of the module, as the parser returns it. *)
Definition source_program : program :=
  [ SAssign ["module"; "exports"]
      (EObj
         [ ("apps",
            EArr
              [ EObj
                  [ ("name", EStr "discord-reports");
                    ("script", EStr "bot.py");
                    ("interpreter", EStr "python3");
                    ("cron_restart", EStr "30 4 * * *");
                    ("env", EObj [ ("PYTHONUNBUFFERED", EStr "1") ]) ] ]) ]) ].

(** The record a supervisor decodes from the file. *)
Definition discord_reports : launch_spec :=
  {| name := "discord-reports";
     script := "bot.py";
     interpreter := Some "python3";
     cron_restart := Some "30 4 * * *";
     env := Some {[ "PYTHONUNBUFFERED" := "1" ]} |}.

(** * Properties *)

(** ** The module text evaluates to the exported value *)

Lemma source_length : String.length ecosystem_config_js = 221%nat.
Proof. reflexivity. Qed.

Lemma parse_source : parse ecosystem_config_js = Ok source_program.
Proof. vm_compute. reflexivity. Qed.

Lemma exec_source (h : host) :
  exec_all (init_store h) source_program
  = Ok (Obj.set "module" (VObj [("exports", module_exports)]) (init_store h)).
Proof. reflexivity. Qed.

Lemma evaluate_source (h : host) :
  evaluate h ecosystem_config_js = Ok module_exports.
Proof. unfold evaluate. rewrite parse_source. reflexivity. Qed.

Lemma load_app_source : load_app app = Ok discord_reports.
Proof. vm_compute. reflexivity. Qed.

Lemma load_source (h : host) :
  load h ecosystem_config_js = Ok [discord_reports].
Proof.
  unfold load. rewrite evaluate_source.
  change (Ok module_exports ≫= (fun v => vs ← apps_of v; load_apps vs))
    with (a ← load_app app; Ok [a]).
  rewrite load_app_source. reflexivity.
Qed.

(** The evaluator does read the host where a module asks for it; the
    configuration module never does. *)
Example evaluate_reads_host :
  let src := "module.exports = { home: process.env.HOME };" in
  evaluate (Host [("HOME", "/root")] []) src
    = Ok (VObj [("home", VStr "/root")])
  ∧ evaluate (Host [] []) src = Ok (VObj [("home", VUndefined)]).
Proof. split; vm_compute; reflexivity. Qed.

(** A record inherits from [Object.prototype] like any object: such names
    read as built-ins although the record does not define them. *)
Example inherited_reads :
  field "toString" app = VBuiltin "Object.prototype.toString"
  ∧ field "constructor" app = VBuiltin "Object"
  ∧ has_field "toString" app = false
  ∧ has_field "constructor" app = false.
Proof. repeat split. Qed.

(** A number where the schema wants a string is rejected, and so is an
    option the schema does not declare. *)
Example load_app_rejects :
  load_app (VObj [("name", VStr "a"); ("script", VStr "b");
                  ("env", VObj [("PYTHONUNBUFFERED", VNum 1)])])
    = Err (SchemaError "PYTHONUNBUFFERED")
  ∧ load_app (VObj [("name", VStr "a"); ("script", VStr "b");
                    ("watch", VStr "yes")])
    = Err (SchemaError "watch")
  ∧ load_app (VObj [("name", VStr "a")]) = Err (SchemaError "script").
Proof. repeat split; vm_compute; reflexivity. Qed.

Example valid_cron_examples :
  valid_cron "*/5 0-23 1,15 * 1-5/2" = true
  ∧ valid_cron "30 4 * *" = false
  ∧ valid_cron "60 4 * * *" = false
  ∧ valid_cron "30 24 * * *" = false.
Proof. repeat split; vm_compute; reflexivity. Qed.

(** ** The decoder enforces the schema *)

Lemma bind_ok {A B : Type} (r : result A) (k : A -> result B) (b : B) :
  r ≫= k = Ok b → ∃ a, r = Ok a ∧ k a = Ok b.
Proof. destruct r as [a|e]; [eauto | discriminate]. Qed.

Lemma as_string_ok (k : string) (v : value) (s : string) :
  as_string k v = Ok s → v = VStr s.
Proof. destruct v; simpl; congruence. Qed.

Lemma as_cron_ok (k : string) (v : value) (s : string) :
  as_cron k v = Ok s → v = VStr s ∧ valid_cron s = true.
Proof.
  unfold as_cron. intros H.
  apply bind_ok in H as (s' & Hs & H).
  apply as_string_ok in Hs.
  destruct (valid_cron s') eqn:Hc; [|discriminate].
  injection H as <-. auto.
Qed.

Lemma as_bindings_ok (ps : list (string * value)) (kvs : list (string * string)) :
  as_bindings ps = Ok kvs → Forall (fun kv => is_string kv.2) ps.
Proof.
  revert kvs. induction ps as [|[k v] ps IH]; intros kvs H.
  - constructor.
  - simpl in H.
    apply bind_ok in H as (s & Hs & H).
    apply bind_ok in H as (kvs' & Hkvs & _).
    constructor; [exists s; by apply (as_string_ok k) | by eapply IH].
Qed.

Lemma as_string_map_ok (k : string) (v : value) (m : gmap string string) :
  as_string_map k v = Ok m → is_string_map v.
Proof.
  destruct v as [| | |xs|ps|b]; simpl; try discriminate.
  intros H. apply bind_ok in H as (kvs & Hkvs & _).
  exists ps. split; [done | by eapply as_bindings_ok].
Qed.

Lemma lookup_keys (k : string) (ps : list (string * value)) :
  k ∈ Obj.keys ps ↔ is_Some (Obj.lookup k ps).
Proof.
  induction ps as [|[k' v] ps IH]; simpl.
  - split; [by intros ?%elem_of_nil | by intros [? ?]].
  - rewrite elem_of_cons. destruct (String.eqb_spec k k') as [->|Hne].
    + split; eauto.
    + rewrite <- IH. split; [by intros [?|?] | by right].
Qed.

Lemma own_keys_has_field (k : string) (v : value) :
  k ∈ own_keys v ↔ has_field k v = true.
Proof.
  destruct v as [| | |xs|ps|b]; simpl;
    try (split; [by intros ?%elem_of_nil | discriminate]).
  rewrite lookup_keys. by rewrite bool_decide_eq_true.
Qed.

Lemma undeclared_none (v : value) (k : string) :
  undeclared v = None → k ∈ own_keys v → k ∈ declared_fields.
Proof.
  unfold undeclared. rewrite head_None. intros Hnil Hk.
  destruct (decide (k ∈ declared_fields)) as [|Hno]; [done|].
  by destruct (filter_nil_not_elem_of _ _ k Hnil Hno).
Qed.

Lemma required_ok {A : Type} (dec : string -> value -> result A)
    (k : string) (v : value) (a : A) :
  required dec k v = Ok a → has_field k v = true ∧ dec k (field k v) = Ok a.
Proof. unfold required. by destruct (has_field k v). Qed.

Lemma optional_ok {A : Type} (dec : string -> value -> result A)
    (k : string) (v : value) (o : option A) :
  optional dec k v = Ok o → has_field k v = true →
  ∃ a, dec k (field k v) = Ok a.
Proof.
  unfold optional. intros H Hk. rewrite Hk in H.
  apply bind_ok in H as (a & Ha & _). eauto.
Qed.

(** Whatever [load_app] accepts satisfies the schema. *)
Lemma load_app_conforms (v : value) (cfg : launch_spec) :
  load_app v = Ok cfg → conforms v.
Proof.
  unfold load_app. destruct v as [| | |xs|ps|b]; try discriminate.
  set (v := VObj ps).
  destruct (undeclared v) as [k|] eqn:Hund; [discriminate|].
  intros H.
  apply bind_ok in H as (n & Hn & H). apply required_ok in Hn as [Hn1 Hn2].
  apply bind_ok in H as (s & Hs & H). apply required_ok in Hs as [Hs1 Hs2].
  apply bind_ok in H as (i & Hi & H).
  apply bind_ok in H as (c & Hc & H).
  apply bind_ok in H as (e & He & _).
  apply as_string_ok in Hn2, Hs2.
  repeat split; eauto; try (by eexists).
  intros k Hk.
  pose proof (undeclared_none v k Hund Hk) as Hdecl.
  apply own_keys_has_field in Hk.
  unfold declared_fields in Hdecl.
  repeat (apply elem_of_cons in Hdecl as [->|Hdecl]); auto.
  - destruct (optional_ok _ _ _ _ Hi Hk) as (a & Ha).
    apply as_string_ok in Ha. right; right; left. split; [done | by exists a].
  - destruct (optional_ok _ _ _ _ Hc Hk) as (a & Ha).
    apply as_cron_ok in Ha as [Ha1 Ha2]. do 3 right; left. eauto.
  - destruct (optional_ok _ _ _ _ He Hk) as (a & Ha).
    apply as_string_map_ok in Ha. do 4 right. auto.
  - by apply elem_of_nil in Hdecl.
Qed.

(** ** Reading through the cache *)

Lemma require_n_cached (h : host) (n : nat) (v : value) :
  require_n h n (Some v) = Ok (replicate n v, Some v).
Proof.
  induction n as [|n IH]; [reflexivity|].
  simpl. rewrite IH. reflexivity.
Qed.

Lemma require_first (h : host) :
  require h None = Ok (module_exports, Some module_exports).
Proof. unfold require. rewrite evaluate_source. reflexivity. Qed.

(** ** The claims of the specification *)

(** A decidable proposition about closed terms, by evaluation. *)
Ltac closed_decide := apply (bool_decide_unpack _); vm_compute; exact I.

(** C1.  Loading the text of [ecosystem.config.js] succeeds on every host:
    the module evaluates without error, and the one record decoded from it
    has name [discord-reports], script [bot.py], interpreter [python3],
    cron_restart [30 4 * * *] and the environment mapping
    [PYTHONUNBUFFERED] to the string [1]. *)
Theorem load_ecosystem_config (h : host) :
  evaluate h ecosystem_config_js = Ok module_exports
  ∧ ∃ cfg, load h ecosystem_config_js = Ok [cfg]
      ∧ name cfg = "discord-reports"
      ∧ script cfg = "bot.py"
      ∧ interpreter cfg = Some "python3"
      ∧ cron_restart cfg = Some "30 4 * * *"
      ∧ env cfg = Some {[ "PYTHONUNBUFFERED" := "1" ]}.
Proof.
  split; [apply evaluate_source|].
  exists discord_reports. split; [apply load_source|].
  repeat split.
Qed.

(** C2.  The fields [name] and [script] of the configuration record are
    strings, and neither is empty; the same holds of the record decoded from
    the file. *)
Theorem name_script_nonempty (h : host) :
  (∃ n s, field "name" app = VStr n ∧ field "script" app = VStr s
     ∧ n ≠ EmptyString ∧ s ≠ EmptyString
     ∧ (0 < String.length n)%nat ∧ (0 < String.length s)%nat)
  ∧ ∃ cfg, load h ecosystem_config_js = Ok [cfg]
      ∧ nonempty (name cfg) = true ∧ nonempty (script cfg) = true.
Proof.
  split.
  - exists "discord-reports", "bot.py". simpl. repeat split; (done || lia).
  - exists discord_reports. split; [apply load_source | done].
Qed.

(** C3.  The [cron_restart] field is the string [30 4 * * *]; it splits at
    blanks into exactly five fields, the first a minute between 0 and 59,
    the second an hour between 0 and 23, the other three wildcards that are
    valid for day of month, month and day of week; so it is a valid
    five-field cron expression. *)
Theorem cron_restart_valid :
  field "cron_restart" app = VStr "30 4 * * *"
  ∧ cron_fields "30 4 * * *" = ["30"; "4"; "*"; "*"; "*"]
  ∧ length (cron_fields "30 4 * * *") = 5%nat
  ∧ (∃ m, decimal "30" = Some m ∧ 0 <= m <= 59)
  ∧ (∃ hr, decimal "4" = Some hr ∧ 0 <= hr <= 23)
  ∧ day_of_month_ok "*" = true
  ∧ month_ok "*" = true
  ∧ day_of_week_ok "*" = true
  ∧ valid_cron "30 4 * * *" = true.
Proof.
  repeat split; try reflexivity.
  - exists 30. split; [reflexivity | lia].
  - exists 4. split; [reflexivity | lia].
Qed.

(** C4.  The [env] field is a mapping from string keys to string values:
    it is an object (whose property names are strings) every value of which
    is a string; in particular [PYTHONUNBUFFERED] is bound to the string
    [1], not to a number. *)
Theorem env_string_map :
  is_string_map (field "env" app)
  ∧ field "PYTHONUNBUFFERED" (field "env" app) = VStr "1"
  ∧ ∀ n, field "PYTHONUNBUFFERED" (field "env" app) ≠ VNum n.
Proof.
  split; [|split].
  - exists [("PYTHONUNBUFFERED", VStr "1")]. split; [reflexivity|].
    constructor; [by exists "1" | constructor].
  - reflexivity.
  - intros n. simpl. discriminate.
Qed.

(** C5.  The configuration record satisfies the schema of the external
    interface: [name] and [script] are present and are strings, and every
    other field present is [interpreter] with a string, [cron_restart] with
    a valid cron expression, or [env] with a mapping from strings to
    strings; the decoder accepts the record. *)
Theorem app_satisfies_schema :
  conforms app ∧ load_app app = Ok discord_reports.
Proof.
  split; [|apply load_app_source].
  apply (load_app_conforms app discord_reports), load_app_source.
Qed.

(** C6.  The environment mapping of the configuration record has exactly
    one binding, for [PYTHONUNBUFFERED]. *)
Theorem env_single_binding :
  own_keys (field "env" app) = ["PYTHONUNBUFFERED"]
  ∧ length (own_keys (field "env" app)) = 1%nat
  ∧ ∃ m, env discord_reports = Some m
      ∧ size m = 1%nat
      ∧ dom m = {[ "PYTHONUNBUFFERED" ]}.
Proof.
  repeat split.
  exists {[ "PYTHONUNBUFFERED" := "1" ]}. split; [reflexivity|].
  split; [apply map_size_singleton | apply dom_singleton_L].
Qed.

(** C7.  The configuration is immutable data.  The module consists of the
    one statement that constructs the record, so [module.exports] holds the
    record after it and no later statement exists to change it; and reading
    the export any number of times, from an empty cache, from a filled one
    or after a reload, returns the same record every time and leaves the
    cached record as it was. *)
Theorem config_immutable (h : host) (n : nat) :
  parse ecosystem_config_js = Ok source_program
  ∧ length source_program = 1%nat
  ∧ exports_trace (init_store h) source_program = Ok [module_exports]
  ∧ require_n h (S n) None
    = Ok (replicate (S n) module_exports, Some module_exports)
  ∧ require_n h n (Some module_exports)
    = Ok (replicate n module_exports, Some module_exports)
  ∧ reload h (Some module_exports) = Ok (module_exports, Some module_exports).
Proof.
  split; [apply parse_source|].
  split; [reflexivity|].
  split; [reflexivity|].
  split; [|split].
  - change (require_n h (S n) None)
      with ('(v, c) ← require h None;
            '(vs, c') ← require_n h n c; Ok (v :: vs, c')).
    rewrite require_first. simpl. rewrite require_n_cached. reflexivity.
  - apply require_n_cached.
  - apply require_first.
Qed.

(** C8.  The exported object has an [apps] list with exactly one entry, the
    process launch specification; there is no second managed process. *)
Theorem apps_single_entry (h : host) :
  ∃ v, evaluate h ecosystem_config_js = Ok v
    ∧ apps_of v = Ok [app]
    ∧ own_keys v = ["apps"]
    ∧ ∃ xs, apps_of v = Ok xs ∧ length xs = 1%nat.
Proof.
  exists module_exports. split; [apply evaluate_source|].
  repeat split. by exists [app].
Qed.

(** C9.  The app record defines exactly the five keys [name], [script],
    [interpreter], [cron_restart] and [env], and sets no other option (such
    as [watch], [instances] or [args]): any other name is absent from the
    record, a read of it gives what the same read gives on an empty object,
    and that is [undefined] for every name an object does not inherit from
    [Object.prototype]. *)
Theorem app_five_keys :
  own_keys app = ["name"; "script"; "interpreter"; "cron_restart"; "env"]
  ∧ ∀ k, k ∉ ["name"; "script"; "interpreter"; "cron_restart"; "env"] →
      has_field k app = false
      ∧ field k app = field k (VObj [])
      ∧ (k ∉ inherited_names → field k app = VUndefined).
Proof.
  split; [reflexivity|].
  intros k Hk.
  assert (Obj.lookup k
            [ ("name", VStr "discord-reports"); ("script", VStr "bot.py");
              ("interpreter", VStr "python3");
              ("cron_restart", VStr "30 4 * * *");
              ("env", VObj [ ("PYTHONUNBUFFERED", VStr "1") ]) ] = None)
    as Hnone.
  { simpl.
    repeat match goal with
           | |- context [String.eqb k ?s] =>
               destruct (String.eqb_spec k s) as [->|_];
               [exfalso; apply Hk; set_solver|]
           end.
    reflexivity. }
  unfold field, get_prop, has_field, app. rewrite Hnone.
  split; [|split].
  - apply bool_decide_eq_false. by intros [? ?].
  - reflexivity.
  - intros Hin.
    destruct (Obj.lookup k object_prototype) as [x|] eqn:Hproto;
      [|reflexivity].
    exfalso. apply Hin, lookup_keys. by exists x.
Qed.

Lemma app_five_keys_witness :
  (has_field "watch" app = false ∧ field "watch" app = VUndefined)
  ∧ (has_field "instances" app = false ∧ field "instances" app = VUndefined)
  ∧ (has_field "args" app = false ∧ field "args" app = VUndefined).
Proof.
  split; [|split].
  - destruct (proj2 app_five_keys "watch") as (Hown & _ & Hread);
      [closed_decide|].
    split; [exact Hown | apply Hread; closed_decide].
  - destruct (proj2 app_five_keys "instances") as (Hown & _ & Hread);
      [closed_decide|].
    split; [exact Hown | apply Hread; closed_decide].
  - destruct (proj2 app_five_keys "args") as (Hown & _ & Hread);
      [closed_decide|].
    split; [exact Hown | apply Hread; closed_decide].
Defined.

(** C10.  Evaluating the configuration module is deterministic: on any two
    hosts, whatever their environment and arguments, and whatever the cache
    held before a reload, evaluation succeeds with the same record. *)
Theorem evaluate_deterministic (h1 h2 : host) (c1 c2 : option value) :
  evaluate h1 ecosystem_config_js = evaluate h2 ecosystem_config_js
  ∧ evaluate h1 ecosystem_config_js = Ok module_exports
  ∧ load h1 ecosystem_config_js = load h2 ecosystem_config_js
  ∧ reload h1 c1 = reload h2 c2.
Proof.
  rewrite !evaluate_source, !load_source.
  unfold reload. rewrite !require_first. done.
Qed.
